(** * SSRF demo server (src/server.js): a shallow embedding

    JavaScript strings are sequences of UTF-16 code units.  This development
    models the code units U+0000 .. U+00FF (Latin-1): an [Ascii.ascii] is read
    as the code unit with the same 8-bit value.  This range is closed under
    [String.prototype.toLowerCase], and it contains both characters that
    [String.prototype.trim] removes (TAB .. CR, SPACE, NO-BREAK SPACE) and
    some that it keeps (NEXT LINE, U+0085). *)

From Stdlib Require Import ZArith Ascii String List Bool Lia.
Import ListNotations.
Open Scope string_scope.
Set Warnings "-register-all".

(** ** JavaScript string primitives *)

Definition code (c : ascii) : nat := nat_of_ascii c.

(** [String.prototype.toLowerCase] on one code unit of the Latin-1 range:
    A-Z and U+00C0 .. U+00DE (except the multiplication sign U+00D7) map to
    the code unit 0x20 above; everything else is unchanged. *)
Definition lower_char (c : ascii) : ascii :=
  let n := code c in
  if ((Nat.leb 65 n) && (Nat.leb n 90)) || ((Nat.leb 192 n) && (Nat.leb n 222) && negb (Nat.eqb n 215))
  then ascii_of_nat (n + 32) else c.

Fixpoint toLowerCase (s : string) : string :=
  match s with
  | EmptyString => EmptyString
  | String c r => String (lower_char c) (toLowerCase r)
  end.

(** ECMAScript WhiteSpace and LineTerminator code units of the Latin-1 range:
    TAB, LF, VT, FF, CR, SPACE and NO-BREAK SPACE (a Zs character).
    NEXT LINE (U+0085) is not among them. *)
Definition is_js_space (c : ascii) : bool :=
  let n := code c in
  ((Nat.leb 9 n) && (Nat.leb n 13)) || (Nat.eqb n 32) || (Nat.eqb n 160).

Fixpoint trim_start (s : string) : string :=
  match s with
  | EmptyString => EmptyString
  | String c r => if is_js_space c then trim_start r else s
  end.

Fixpoint trim_end (s : string) : string :=
  match s with
  | EmptyString => EmptyString
  | String c r =>
      let r' := trim_end r in
      match r' with
      | EmptyString => if is_js_space c then EmptyString else String c EmptyString
      | _ => String c r'
      end
  end.

(** [String.prototype.trim] *)
Definition trim (s : string) : string := trim_end (trim_start s).

(** [String.prototype.includes]: [sub] occurs at some position of [s]. *)
Fixpoint includes (s sub : string) : bool :=
  prefix sub s ||
  match s with
  | EmptyString => false
  | String _ r => includes r sub
  end.

(** [String.prototype.slice(0, n)] for [n >= 0]. *)
Definition slice0 (s : string) (n : nat) : string := substring 0 n s.

(** ** The regular expression [/^https?:\/\//i]

    Without the [u] flag, the [i] flag compares characters by the
    Canonicalize operation of ECMA-262 (22.2.2.7.3): the upper case of the
    code unit, except that a non-ASCII code unit whose upper case is ASCII,
    or whose upper case is not a single code unit, is kept.  On Latin-1:
    a-z and U+00E0 .. U+00FE (except U+00F7) go down by 0x20, MICRO SIGN goes
    to U+039C, U+00FF goes to U+0178, and U+00DF (upper case "SS") stays. *)
Definition canonicalize (c : ascii) : nat :=
  let n := code c in
  if (Nat.leb 97 n) && (Nat.leb n 122) then n - 32
  else if (Nat.leb 224 n) && (Nat.leb n 254) && negb (Nat.eqb n 247) then n - 32
  else if Nat.eqb n 181 then 924
  else if Nat.eqb n 255 then 376
  else n.

(** The anchored pattern [pat] matches a prefix of [s], case-insensitively. *)
Fixpoint ci_prefix (pat s : string) : bool :=
  match pat, s with
  | EmptyString, _ => true
  | String p pr, String c r => Nat.eqb (canonicalize p) (canonicalize c) && ci_prefix pr r
  | String _ _, EmptyString => false
  end.

(** [/^https?:\/\//i.test(url)]: the optional [s] gives two alternatives. *)
Definition scheme_test (url : string) : bool :=
  ci_prefix "http://" url || ci_prefix "https://" url.

(** ** Validation Policy (server.js lines 75-84)

    The two checks the [/api/fetch] handler makes, in the order it makes them. *)
Inductive decision := Allowed | Forbidden | UnsupportedScheme.

(** [lowered.includes('localhost') || lowered.includes('127.0.0.1') || lowered.includes('::1')] *)
Definition forbidlist_hit (lowered : string) : bool :=
  includes lowered "localhost" || includes lowered "127.0.0.1" || includes lowered "::1".

Definition validate (url : string) : decision :=
  let lowered := toLowerCase url in
  if forbidlist_hit lowered then Forbidden
  else if negb (scheme_test url) then UnsupportedScheme
  else Allowed.

(** [s] has only code units satisfying [f]. *)
Fixpoint string_forall (f : ascii -> bool) (s : string) : bool :=
  match s with
  | EmptyString => true
  | String c r => f c && string_forall f r
  end.

(** [c] repeated [n] times. *)
Fixpoint replicate (n : nat) (c : ascii) : string :=
  match n with
  | O => EmptyString
  | S k => String c (replicate k c)
  end.

(** The Unicode White_Space property on the Latin-1 range: TAB .. CR, SPACE,
    NEXT LINE (U+0085) and NO-BREAK SPACE. *)
Definition unicode_white_space (c : ascii) : bool :=
  let n := code c in
  ((Nat.leb 9 n) && (Nat.leb n 13)) || (Nat.eqb n 32) || (Nat.eqb n 133) || (Nat.eqb n 160).

(** ** Express requests and responses *)

(** A parsed query-string value ([req.query.url]): the [qs] parser gives a
    string, an array for a repeated key ([?url=a&url=b]) or an object for a
    bracketed key ([?url[k]=v]). *)
Inductive query_value :=
| QStr (s : string)
| QArr (items : list string)
| QObj (fields : list (string * string)).

Inductive json :=
| JNum (z : Z)
| JStr (s : string)
| JObj (fields : list (string * json)).

(** The value of key [k] in a JSON object's fields (the first occurrence). *)
Fixpoint json_field (k : string) (fields : list (string * json)) : option json :=
  match fields with
  | [] => None
  | (k', v) :: rest => if String.eqb k k' then Some v else json_field k rest
  end.

Record response := mk_response {
  res_status : Z;
  res_content_type : string;
  res_body : string + json   (* [res.send(text)] or [res.json(value)] *)
}.

(** [res.status(code).json(value)]: Express sets the type with its charset. *)
Definition reply_json (code : Z) (v : json) : response :=
  mk_response code "application/json; charset=utf-8" (inr v).

(** What an asynchronous handler ends in: a response sent, or an exception
    that leaves the handler (Express 4 does not catch a rejected handler
    promise, so no response is sent). *)
Inductive outcome :=
| Replied (r : response)
| Threw (msg : string).

(** ** The outbound fetch ([node-fetch] v2)

    [fetch(url, {redirect: 'follow', timeout: 5000})] either rejects or
    resolves to the final response of the redirect chain; [r.text()] on that
    response either rejects or resolves to the body text.  The reason of a
    rejection is recorded with its [String(e)]. *)
Inductive fetch_failure :=
| NetworkFailure        (* DNS failure, connection refused, TLS failure *)
| TimeoutExpired        (* the 5000 ms [timeout] option *)
| TooManyRedirects      (* [redirect: 'follow'] past the [follow] limit (20) *)
| InvalidUrl            (* the URL cannot be parsed into an absolute URL *)
| BodyReadFailure.      (* the body stream fails while [r.text()] reads it *)

Record fetch_error := mk_fetch_error {
  fe_kind : fetch_failure;
  fe_string : string
}.

Record upstream := mk_upstream {
  r_status : Z;
  r_text : fetch_error + string
}.

(** ** The handler's effects

    A state monad whose state is the list of URLs handed to [fetch], in call
    order: the network calls the handler makes. *)
Definition M (A : Type) : Type := list string -> A * list string.

Definition ret {A : Type} (a : A) : M A := fun log => (a, log).

Definition bind {A B : Type} (m : M A) (k : A -> M B) : M B :=
  fun log => let (a, log') := m log in k a log'.

Notation "x <- m ;; k" := (bind m (fun x => k))
  (at level 61, m at next level, right associativity).

Definition run {A : Type} (m : M A) : A * list string := m [].

(** The truncation marker of line 92. *)
Definition truncation_marker : string :=
  String "010" (String "010" "...[truncated]").

(** Line 92:
    [text.length > 2000 ? text.slice(0, 2000) + '\n\n...[truncated]' : text] *)
Definition snippet_of (text : string) : string :=
  if Nat.ltb 2000 (String.length text) then slice0 text 2000 ++ truncation_marker else text.

Section Gateway.

(** The outcome of [fetch] for a URL. *)
Variable fetch : string -> fetch_error + upstream.

(** [await fetch(url, ...)]: one network call, logged. *)
Definition do_fetch (url : string) : M (fetch_error + upstream) :=
  fun log => (fetch url, (log ++ [url])%list).

Definition fetch_failed (e : fetch_error) : outcome :=
  Replied (reply_json 500 (JObj [("error", JStr "fetch failed"); ("detail", JStr (fe_string e))])).

(** The [try] block of lines 86-96 once [fetch] has settled: a rejection of
    [fetch] or of [r.text()] lands in the [catch]. *)
Definition fetched_reply (url : string) (r : fetch_error + upstream) : outcome :=
  match r with
  | inl e => fetch_failed e
  | inr resp =>
      match r_text resp with
      | inl e => fetch_failed e
      | inr text =>
          let snippet := snippet_of text in
          Replied (reply_json 200
                     (JObj [("status", JNum (r_status resp)); ("url", JStr url);
                            ("body", JStr snippet)]))
      end
  end.

(** [app.get('/api/fetch', async (req, res) => ...)], lines 71-97;
    [query_url] is [req.query.url] ([None] when absent). *)
Definition api_fetch (query_url : option query_value) : M outcome :=
  (* const url = (req.query.url || '').trim(); *)
  let raw := match query_url with
             | None => Some ""
             | Some (QStr s) => Some s
             | Some (QArr _) | Some (QObj _) => None   (* no [trim] method *)
             end in
  match raw with
  | None => ret (Threw "TypeError: (req.query.url || '').trim is not a function")
  | Some raw =>
    let url := trim raw in
    if String.eqb url "" then
      ret (Replied (reply_json 400 (JObj [("error", JStr "url parameter required")])))
    else
    let lowered := toLowerCase url in
    if forbidlist_hit lowered then
      ret (Replied (reply_json 403 (JObj [("error", JStr "local addresses are not allowed")])))
    else if negb (scheme_test url) then
      ret (Replied (reply_json 400 (JObj [("error", JStr "only http and https allowed")])))
    else
      r <- do_fetch url ;;
      ret (fetched_reply url r)
  end.

End Gateway.

(** ** Process start-up: configuration and listeners (lines 28-30, 49, 110) *)

Record env := mk_env {
  env_FLAG : option string;   (* [process.env.FLAG] *)
  env_PORT : option string    (* [process.env.PORT] *)
}.

Definition default_flag : string := "FLAG{ssrf_decimal_wrap}".

(** [const FLAG = process.env.FLAG || 'FLAG{ssrf_decimal_wrap}'];
    the empty string is falsy. *)
Definition FLAG_of (e : env) : string :=
  match env_FLAG e with
  | Some v => if String.eqb v "" then default_flag else v
  | None => default_flag
  end.

Inductive port_value := PortNum (n : Z) | PortStr (s : string).

(** [const MAIN_PORT = process.env.PORT || 3000] *)
Definition MAIN_PORT_of (e : env) : port_value :=
  match env_PORT e with
  | Some v => if String.eqb v "" then PortNum 3000 else PortStr v
  | None => PortNum 3000
  end.

(** [const INTERNAL_PORT = 8000] *)
Definition INTERNAL_PORT : Z := 8000.

Inductive app_id := InternalApp | PublicApp.

(** A call [app.listen(port, host?)]; [None] for no host argument, which
    makes Node bind the unspecified (wildcard) address. *)
Record listen_call := mk_listen {
  l_app : app_id;
  l_port : port_value;
  l_host : option string
}.

(** The listen calls the module makes at start-up, in order: the internal
    service (line 49) and the public app (line 110). *)
Definition startup_listens (e : env) : list listen_call :=
  [ mk_listen InternalApp (PortNum INTERNAL_PORT) (Some "127.0.0.1");
    mk_listen PublicApp (MAIN_PORT_of e) None ].

(** ** Reading an IPv4 address: the numbers-and-dots form of [inet_aton]

    The resolver and the WHATWG URL host parser read a host of one to four
    dot-separated numbers, each decimal, octal (leading [0]) or hexadecimal
    (leading [0x]); the last number fills the remaining bytes. *)
Definition digit_value (c : ascii) : option Z :=
  let n := code c in
  if (Nat.leb 48 n) && (Nat.leb n 57) then Some (Z.of_nat n - 48)%Z
  else if (Nat.leb 97 n) && (Nat.leb n 102) then Some (Z.of_nat n - 87)%Z
  else if (Nat.leb 65 n) && (Nat.leb n 70) then Some (Z.of_nat n - 55)%Z
  else None.

Fixpoint parse_radix (base acc : Z) (s : string) : option Z :=
  match s with
  | EmptyString => Some acc
  | String c r =>
      match digit_value c with
      | Some d => if (d <? base)%Z then parse_radix base (acc * base + d)%Z r else None
      | None => None
      end
  end.

Definition parse_part (s : string) : option Z :=
  match s with
  | EmptyString => None
  | String "0" (String x r) =>
      if (Ascii.eqb x "x" || Ascii.eqb x "X")%bool then
        match r with EmptyString => None | _ => parse_radix 16 0 r end
      else parse_radix 8 0 (String x r)
  | _ => parse_radix 10 0 s
  end.

Fixpoint split_dots (s : string) : list string :=
  match s with
  | EmptyString => [EmptyString]
  | String c r =>
      match split_dots r with
      | [] => []
      | p :: ps => if Ascii.eqb c "." then EmptyString :: p :: ps else String c p :: ps
      end
  end.

Definition inet_aton (s : string) : option Z :=
  match map parse_part (split_dots s) with
  | [Some a] => if (a <? 2 ^ 32)%Z then Some a else None
  | [Some a; Some b] =>
      if (a <? 256)%Z && (b <? 2 ^ 24)%Z then Some (a * 2 ^ 24 + b)%Z else None
  | [Some a; Some b; Some c] =>
      if (a <? 256)%Z && (b <? 256)%Z && (c <? 2 ^ 16)%Z
      then Some (a * 2 ^ 24 + b * 2 ^ 16 + c)%Z else None
  | [Some a; Some b; Some c; Some d] =>
      if (a <? 256)%Z && (b <? 256)%Z && (c <? 256)%Z && (d <? 256)%Z
      then Some (a * 2 ^ 24 + b * 2 ^ 16 + c * 2 ^ 8 + d)%Z else None
  | _ => None
  end.

(** The code units a numbers-and-dots host can contain: digits, hexadecimal
    letters, the [x] of a [0x] prefix and the dot. *)
Definition ipv4_char (c : ascii) : bool :=
  match digit_value c with
  | Some _ => true
  | None => Ascii.eqb c "." || Ascii.eqb c "x" || Ascii.eqb c "X"
  end.

(** The number of dots of [s]: [split_dots s] has one more part. *)
Fixpoint count_dots (s : string) : nat :=
  match s with
  | EmptyString => 0
  | String c r => (if Ascii.eqb c "." then 1 else 0) + count_dots r
  end.

(** ** Connections to the listeners

    Addresses are IPv4 (as 32-bit numbers) or IPv6 (as 128-bit numbers). *)
Inductive ip := V4 (a : Z) | V6 (a : Z).

Definition ip_eqb (a b : ip) : bool :=
  match a, b with
  | V4 x, V4 y => Z.eqb x y
  | V6 x, V6 y => Z.eqb x y
  | _, _ => false
  end.

(** 127.0.0.0/8 and ::1 *)
Definition is_loopback (a : ip) : bool :=
  match a with
  | V4 z => Z.eqb (Z.shiftr z 24) 127
  | V6 z => Z.eqb z 1
  end.

Record conn_attempt := mk_conn {
  c_src : ip;
  c_dst : ip;
  c_port : Z
}.

Definition port_matches (p : port_value) (n : Z) : bool :=
  match p with
  | PortNum m => Z.eqb m n
  | PortStr s => match parse_radix 10 0 s with
                 | Some m => Z.eqb m n && negb (String.eqb s "")
                 | None => false
                 end
  end.

(** A socket bound to a specific address takes only connections addressed
    to it; one bound to the unspecified address takes any destination.  A host
    argument that is not an IPv4 literal would be resolved by DNS first: no
    call of this program passes one, and it matches nothing here. *)
Definition bind_matches (host : option string) (dst : ip) : bool :=
  match host with
  | None => true
  | Some h => match inet_aton h with
              | Some a => ip_eqb (V4 a) dst
              | None => false
              end
  end.

Section Network.

(** [delivered src dst]: the host's IP layer hands a segment from [src]
    addressed to [dst] to its transport layer. *)
Variable delivered : ip -> ip -> bool.

(** An attempt [c] reaches a listener of [app] among [ls]. *)
Definition established (ls : list listen_call) (app : app_id) (c : conn_attempt) : Prop :=
  delivered (c_src c) (c_dst c) = true /\
  exists l, In l ls /\ l_app l = app /\ port_matches (l_port l) (c_port c) = true /\
            bind_matches (l_host l) (c_dst c) = true.

End Network.

(** ** The internal service (lines 36-46)

    Its only state is the secret, fixed when the module is loaded. *)
Record internal_state := mk_internal_state { st_flag : string }.

Inductive internal_request :=
| GetInternalFlag                        (* GET /internal/flag *)
| GetInternalInfo (uptime : Z)           (* GET /internal/info, at the given uptime *)
| GetPath (path : string) (uptime : Z).  (* GET of the path name [path], at the given uptime *)

Definition internal_init (e : env) : internal_state := mk_internal_state (FLAG_of e).

(** *** Express's router

    With the default settings (routing neither case-sensitive nor strict) a
    route path such as [/internal/flag] becomes the regular expression
    [/^\/internal\/flag\/?$/i], tested against the request's path name. *)
Fixpoint ci_equal (a b : string) : bool :=
  match a, b with
  | EmptyString, EmptyString => true
  | String x a', String y b' => Nat.eqb (canonicalize x) (canonicalize y) && ci_equal a' b'
  | _, _ => false
  end.

Definition route_matches (route path : string) : bool :=
  ci_equal route path || ci_equal (route ++ "/") path.

(** *** The 404 page of Express's final handler

    [finalhandler] answers an unrouted [GET] with the HTML page of
    ['Cannot GET ' + encodeUrl(pathname)]. *)

Definition hex_digit (n : nat) : ascii :=
  if Nat.ltb n 10 then ascii_of_nat (48 + n) else ascii_of_nat (55 + n).

(** One byte as [%XX], upper-case hexadecimal. *)
Definition pct_byte (n : nat) : string :=
  String "%" (String (hex_digit (n / 16)) (String (hex_digit (n mod 16)) "")).

(** The code units [encodeURI] leaves alone: letters, digits,
    [- _ . ! ~ * ' ( )], the reserved [; / ? : @ & = + $ ,] and [#]. *)
Definition uri_unescaped (c : ascii) : bool :=
  let n := code c in
  ((Nat.leb 65 n) && (Nat.leb n 90)) || ((Nat.leb 97 n) && (Nat.leb n 122)) ||
  ((Nat.leb 48 n) && (Nat.leb n 57)) ||
  existsb (Nat.eqb n) [45; 95; 46; 33; 126; 42; 39; 40; 41;
                       59; 47; 63; 58; 64; 38; 61; 43; 36; 44; 35].

(** [encodeURI] of one code unit: UTF-8 bytes, each as [%XX]. *)
Definition encode_uri_char (c : ascii) : string :=
  let n := code c in
  if uri_unescaped c then String c ""
  else if Nat.ltb n 128 then pct_byte n
  else pct_byte (192 + n / 64) ++ pct_byte (128 + n mod 64).

(** The code units [encodeUrl] keeps:
    [\x21\x25\x26-\x3B\x3D\x3F-\x5B\x5D\x5F\x61-\x7A\x7E]. *)
Definition url_safe (c : ascii) : bool :=
  let n := code c in
  (Nat.eqb n 33) || (Nat.eqb n 37) || ((Nat.leb 38 n) && (Nat.leb n 59)) || (Nat.eqb n 61) ||
  ((Nat.leb 63 n) && (Nat.leb n 91)) || (Nat.eqb n 93) || (Nat.eqb n 95) ||
  ((Nat.leb 97 n) && (Nat.leb n 122)) || (Nat.eqb n 126).

Definition is_hex (c : ascii) : bool :=
  match digit_value c with Some _ => true | None => false end.

(** [encodeUrl] (package encodeurl): every match of
    [/(?:[^<url_safe>]|%(?:[^0-9A-Fa-f]|[0-9A-Fa-f][^0-9A-Fa-f]|$))+/g] goes
    through [encodeURI]; a [%] that starts a valid escape is kept. *)
Fixpoint encode_url (s : string) : string :=
  match s with
  | EmptyString => EmptyString
  | String c r =>
      if Ascii.eqb c "%" then
        match r with
        | EmptyString => encode_uri_char c
        | String x r' =>
            if is_hex x then
              match r' with
              | EmptyString => String c (encode_url r)
              | String y r'' =>
                  if is_hex y then String c (encode_url r)
                  else encode_uri_char c ++ encode_uri_char x ++ encode_uri_char y ++ encode_url r''
              end
            else encode_uri_char c ++ encode_uri_char x ++ encode_url r'
        end
      else if url_safe c then String c (encode_url r)
      else encode_uri_char c ++ encode_url r
  end.

(** [escapeHtml] (package escape-html). *)
Fixpoint escape_html (s : string) : string :=
  match s with
  | EmptyString => EmptyString
  | String c r =>
      let n := code c in
      (if Nat.eqb n 34 then "&quot;"
       else if Nat.eqb n 38 then "&amp;"
       else if Nat.eqb n 39 then "&#39;"
       else if Nat.eqb n 60 then "&lt;"
       else if Nat.eqb n 62 then "&gt;"
       else String c "") ++ escape_html r
  end.

(** [.replace(/\n/g, '<br>')] *)
Fixpoint newlines_to_br (s : string) : string :=
  match s with
  | EmptyString => EmptyString
  | String c r => (if Ascii.eqb c "010" then "<br>" else String c "") ++ newlines_to_br r
  end.

(** [.replace(/ {2}/g, ' &nbsp;')] *)
Fixpoint double_space_to_nbsp (s : string) : string :=
  match s with
  | String " " (String " " r) => " &nbsp;" ++ double_space_to_nbsp r
  | String c r => String c (double_space_to_nbsp r)
  | EmptyString => EmptyString
  end.

Definition nl : string := String "010" "".
Definition dq : string := String "034" "".

(** [createHtmlDocument(message)] of finalhandler. *)
Definition html_document (message : string) : string :=
  let body := double_space_to_nbsp (newlines_to_br (escape_html message)) in
  "<!DOCTYPE html>" ++ nl ++ "<html lang=" ++ dq ++ "en" ++ dq ++ ">" ++ nl ++
  "<head>" ++ nl ++ "<meta charset=" ++ dq ++ "utf-8" ++ dq ++ ">" ++ nl ++
  "<title>Error</title>" ++ nl ++ "</head>" ++ nl ++ "<body>" ++ nl ++
  "<pre>" ++ body ++ "</pre>" ++ nl ++ "</body>" ++ nl ++ "</html>" ++ nl.

Definition not_found (path : string) : response :=
  mk_response 404 "text/html; charset=utf-8" (inl (html_document ("Cannot GET " ++ encode_url path))).

(** *** The two routes

    [res.setHeader('Content-Type', 'text/plain'); res.send(`admin-secret: ${FLAG}\n`)];
    [res.send] of a string adds the charset to a type already set. *)
Definition flag_response (flag : string) : response :=
  mk_response 200 "text/plain; charset=utf-8" (inl ("admin-secret: " ++ flag ++ String "010" "")).

(** [res.json({ name: 'internal-debug', uptime: process.uptime() })] *)
Definition info_response (up : Z) : response :=
  reply_json 200 (JObj [("name", JStr "internal-debug"); ("uptime", JNum up)]).

(** Routing of a [GET] of [path]: the routes in declaration order, then the
    final handler. *)
Definition internal_route (flag path : string) (up : Z) : response :=
  if route_matches "/internal/flag" path then flag_response flag
  else if route_matches "/internal/info" path then info_response up
  else not_found path.

Definition internal_step (st : internal_state) (rq : internal_request)
  : internal_state * response :=
  match rq with
  | GetInternalFlag => (st, flag_response (st_flag st))
  | GetInternalInfo up => (st, info_response up)
  | GetPath p up => (st, internal_route (st_flag st) p up)
  end.

(** The path name a request asks for. *)
Definition request_path (rq : internal_request) : string :=
  match rq with
  | GetInternalFlag => "/internal/flag"
  | GetInternalInfo _ => "/internal/info"
  | GetPath p _ => p
  end.

(** The internal service handling a sequence of requests. *)
Fixpoint internal_run (st : internal_state) (rqs : list internal_request)
  : internal_state * list response :=
  match rqs with
  | [] => (st, [])
  | rq :: rest =>
      let (st', r) := internal_step st rq in
      let (st'', rs) := internal_run st' rest in
      (st'', r :: rs)
  end.

(** * Properties *)

(** ** Facts about the string primitives *)

Ltac all_chars c := destruct c as [[] [] [] [] [] [] [] []]; reflexivity.

Lemma lower_char_space : forall c, is_js_space (lower_char c) = is_js_space c.
Proof. intro c; all_chars c. Qed.

Lemma canonicalize_lower : forall c, canonicalize (lower_char c) = canonicalize c.
Proof. intro c; all_chars c. Qed.

Lemma toLowerCase_app : forall a b, toLowerCase (a ++ b) = toLowerCase a ++ toLowerCase b.
Proof. induction a as [|c a IH]; intro b; simpl; [reflexivity | now rewrite IH]. Qed.

Lemma toLowerCase_empty : forall s, toLowerCase s = "" -> s = "".
Proof. intros [|c s] H; [reflexivity | discriminate]. Qed.

Lemma toLowerCase_trim_start : forall s, toLowerCase (trim_start s) = trim_start (toLowerCase s).
Proof.
  induction s as [|c s IH]; simpl; [reflexivity|].
  rewrite lower_char_space. destruct (is_js_space c); [exact IH | reflexivity].
Qed.

Lemma toLowerCase_trim_end : forall s, toLowerCase (trim_end s) = trim_end (toLowerCase s).
Proof.
  induction s as [|c s IH]; simpl; [reflexivity|].
  rewrite <- IH. destruct (trim_end s) as [|c' r]; simpl.
  - rewrite lower_char_space. destruct (is_js_space c); reflexivity.
  - reflexivity.
Qed.

Lemma toLowerCase_trim : forall s, toLowerCase (trim s) = trim (toLowerCase s).
Proof.
  intro s; unfold trim. now rewrite toLowerCase_trim_end, toLowerCase_trim_start.
Qed.

Lemma ci_prefix_lower : forall p s, ci_prefix p (toLowerCase s) = ci_prefix p s.
Proof.
  induction p as [|a p IH]; intros [|c s]; simpl; try reflexivity.
  now rewrite canonicalize_lower, IH.
Qed.

Lemma scheme_test_lower : forall s, scheme_test (toLowerCase s) = scheme_test s.
Proof. intro s; unfold scheme_test; now rewrite !ci_prefix_lower. Qed.

Lemma prefix_empty : forall s, prefix "" s = true.
Proof. intros [|c s]; reflexivity. Qed.

Lemma includes_empty_pat : forall s, includes s "" = true.
Proof. intros [|c s]; reflexivity. Qed.

Lemma includes_of_prefix : forall p s, prefix p s = true -> includes s p = true.
Proof. intros p [|c s] H; simpl in *; rewrite H; reflexivity. Qed.

Lemma includes_cons : forall p c s, includes s p = true -> includes (String c s) p = true.
Proof. intros p c s H. simpl. rewrite H. apply orb_true_r. Qed.

Lemma includes_empty : forall p, p <> "" -> includes "" p = false.
Proof. intros [|c p] H; [congruence | reflexivity]. Qed.

Lemma prefix_trim_end : forall p s,
  string_forall (fun c => negb (is_js_space c)) p = true ->
  prefix p s = true -> prefix p (trim_end s) = true.
Proof.
  intros p s; revert p; induction s as [|c s IH]; intros p Hp Hpre.
  - exact Hpre.
  - destruct p as [|a p]; [apply prefix_empty|].
    simpl in Hpre. destruct (ascii_dec a c) as [->|]; [|discriminate].
    simpl in Hp. apply andb_prop in Hp as [Hc Hp].
    simpl. specialize (IH p Hp Hpre).
    destruct (trim_end s) as [|c' r] eqn:E.
    + destruct p as [|a' p]; [|discriminate].
      apply negb_true_iff in Hc. rewrite Hc. simpl.
      destruct (ascii_dec c c); [reflexivity | congruence].
    + simpl. destruct (ascii_dec c c); [exact IH | congruence].
Qed.

Lemma includes_trim_end : forall p s,
  p <> "" -> string_forall (fun c => negb (is_js_space c)) p = true ->
  includes s p = true -> includes (trim_end s) p = true.
Proof.
  intros p s Hne Hp. induction s as [|c s IH]; intro H; [exact H|].
  simpl in H. apply orb_prop in H as [H|H].
  - apply includes_of_prefix, prefix_trim_end; assumption.
  - specialize (IH H). cbn [trim_end].
    destruct (trim_end s) as [|c' r] eqn:E.
    + now rewrite includes_empty in IH.
    + apply includes_cons, IH.
Qed.

Lemma includes_trim_start : forall p s,
  string_forall (fun c => negb (is_js_space c)) p = true ->
  includes s p = true -> includes (trim_start s) p = true.
Proof.
  intros p s Hp. induction s as [|c s IH]; intro H; [exact H|].
  simpl. destruct (is_js_space c) eqn:Ec; [|exact H].
  simpl in H. apply orb_prop in H as [H|H]; [|exact (IH H)].
  destruct p as [|a p]; [apply includes_empty_pat|].
  simpl in H, Hp. destruct (ascii_dec a c) as [->|]; [|discriminate].
  rewrite Ec in Hp. discriminate.
Qed.

Lemma includes_trim : forall p s,
  p <> "" -> string_forall (fun c => negb (is_js_space c)) p = true ->
  includes s p = true -> includes (trim s) p = true.
Proof.
  intros p s Hne Hp H. unfold trim.
  apply includes_trim_end; auto. apply includes_trim_start; auto.
Qed.

Lemma forbidlist_hit_trim : forall s,
  forbidlist_hit (toLowerCase s) = true -> forbidlist_hit (toLowerCase (trim s)) = true.
Proof.
  intros s H. rewrite toLowerCase_trim. unfold forbidlist_hit in *.
  apply orb_prop in H as [H|H]; [apply orb_prop in H as [H|H]|].
  - rewrite (includes_trim "localhost" _ ltac:(discriminate) eq_refl H); reflexivity.
  - rewrite (includes_trim "127.0.0.1" _ ltac:(discriminate) eq_refl H).
    rewrite orb_true_r; reflexivity.
  - rewrite (includes_trim "::1" _ ltac:(discriminate) eq_refl H).
    rewrite orb_true_r; reflexivity.
Qed.

Lemma trim_only_spaces : forall s, string_forall is_js_space s = true -> trim s = "".
Proof.
  intros s H. unfold trim.
  assert (trim_start s = "") as ->; [|reflexivity].
  induction s as [|c s IH]; [reflexivity|].
  simpl in *. apply andb_prop in H as [-> H]. exact (IH H).
Qed.

Lemma trim_end_cons : forall c r,
  trim_end (String c r) =
  match trim_end r with
  | EmptyString => if is_js_space c then EmptyString else String c EmptyString
  | _ => String c (trim_end r)
  end.
Proof. reflexivity. Qed.

(** The handler on a string parameter, step by step. *)
Lemma api_fetch_str : forall fetch s,
  run (api_fetch fetch (Some (QStr s))) =
  if String.eqb (trim s) "" then
    (Replied (reply_json 400 (JObj [("error", JStr "url parameter required")])), [])
  else match validate (trim s) with
       | Forbidden =>
           (Replied (reply_json 403 (JObj [("error", JStr "local addresses are not allowed")])), [])
       | UnsupportedScheme =>
           (Replied (reply_json 400 (JObj [("error", JStr "only http and https allowed")])), [])
       | Allowed => (fetched_reply (trim s) (fetch (trim s)), [trim s])
       end.
Proof.
  intros fetch s. unfold run, api_fetch, validate, ret, bind, do_fetch; cbv zeta.
  destruct (String.eqb (trim s) ""); [reflexivity|].
  destruct (forbidlist_hit (toLowerCase (trim s))); [reflexivity|].
  destruct (scheme_test (trim s)); reflexivity.
Qed.

(** ** Validation Policy and Public Gateway *)

(** C1: for every url whose lowercased form contains "localhost",
    "127.0.0.1" or "::1", the Validation Policy returns forbidden, and
    [GET /api/fetch] with that url answers 403
    [{error: "local addresses are not allowed"}] without fetching. *)
Theorem forbidden_substring_rejected : forall fetch s,
  forbidlist_hit (toLowerCase s) = true ->
  validate s = Forbidden /\
  run (api_fetch fetch (Some (QStr s))) =
    (Replied (reply_json 403 (JObj [("error", JStr "local addresses are not allowed")])), []).
Proof.
  intros fetch s H. split.
  - unfold validate. now rewrite H.
  - rewrite api_fetch_str. pose proof (forbidlist_hit_trim s H) as Ht.
    destruct (String.eqb (trim s) "") eqn:E.
    + apply String.eqb_eq in E. rewrite E in Ht. discriminate.
    + unfold validate. now rewrite Ht.
Qed.

Lemma forbidden_substring_rejected_witness :
  forbidlist_hit (toLowerCase " HTTP://LocalHost:8000/internal/flag") = true /\
  validate " HTTP://LocalHost:8000/internal/flag" = Forbidden /\
  run (api_fetch (fun _ => inr (mk_upstream 200 (inr "x")))
         (Some (QStr " HTTP://LocalHost:8000/internal/flag"))) =
    (Replied (reply_json 403 (JObj [("error", JStr "local addresses are not allowed")])), []).
Proof.
  split; [reflexivity|].
  apply forbidden_substring_rejected. reflexivity.
Defined.

(** C3: [fetch] is called only for a url that passed both validation steps:
    on every request the handler's network calls are none, or exactly one,
    for the trimmed [url] parameter, which is non-empty and which the
    Validation Policy allows.  A forbidden or unsupported-scheme url is
    never fetched. *)
Theorem fetch_only_after_validation : forall fetch q,
  snd (run (api_fetch fetch q)) = [] \/
  exists s, q = Some (QStr s) /\ trim s <> "" /\ validate (trim s) = Allowed /\
            snd (run (api_fetch fetch q)) = [trim s].
Proof.
  intros fetch [[s|items|fields]|].
  - rewrite api_fetch_str.
    destruct (String.eqb (trim s) "") eqn:E; [left; reflexivity|].
    destruct (validate (trim s)) eqn:V; try (left; reflexivity).
    right. exists s. repeat split; try assumption.
    intro H. rewrite H in E. discriminate.
  - left; reflexivity.
  - left; reflexivity.
  - left; reflexivity.
Qed.

(** C7: the forbidlist check comes before the scheme check: a url with a
    forbidden substring is forbidden whatever its scheme (so
    [ftp://localhost/] gets 403, not 400), and the gateway answers 400
    [{error: "only http and https allowed"}] only for a url that passed the
    forbidlist. *)
Theorem forbidlist_checked_before_scheme :
  (forall u, forbidlist_hit (toLowerCase u) = true -> scheme_test u = false ->
             validate u = Forbidden) /\
  (forall fetch,
     fst (run (api_fetch fetch (Some (QStr "ftp://localhost/")))) =
       Replied (reply_json 403 (JObj [("error", JStr "local addresses are not allowed")]))) /\
  (forall fetch q,
     fst (run (api_fetch fetch q)) =
       Replied (reply_json 400 (JObj [("error", JStr "only http and https allowed")])) ->
     exists s, q = Some (QStr s) /\ forbidlist_hit (toLowerCase (trim s)) = false /\
               scheme_test (trim s) = false).
Proof.
  split; [|split].
  - intros u H _. unfold validate. now rewrite H.
  - intro fetch. reflexivity.
  - intros fetch [[s|items|fields]|] H; try discriminate.
    exists s. split; [reflexivity|].
    rewrite api_fetch_str in H.
    destruct (String.eqb (trim s) "") eqn:E; [discriminate|].
    unfold validate in H.
    destruct (forbidlist_hit (toLowerCase (trim s))); [discriminate|].
    destruct (scheme_test (trim s)); simpl in H.
    + unfold fetched_reply in H.
      destruct (fetch (trim s)) as [e|[st [e|t]]]; discriminate.
    + split; reflexivity.
Qed.

(** *** Occurrences of a substring in a concatenation *)

Lemma includes_first_char : forall f c p s,
  string_forall f s = true -> includes s (String c p) = true -> f c = true.
Proof.
  intros f c p s. induction s as [|x s IH]; intros Hs H; [discriminate|].
  simpl in Hs. apply andb_prop in Hs as [Hx Hs].
  simpl in H. apply orb_prop in H as [H|H]; [|exact (IH Hs H)].
  destruct (ascii_dec c x) as [->|]; [exact Hx | discriminate].
Qed.

(** An occurrence that cannot start in [a] lies in [b]. *)
Lemma includes_app_first : forall f c p a b,
  string_forall f a = true -> f c = false ->
  includes (a ++ b) (String c p) = true -> includes b (String c p) = true.
Proof.
  intros f c p a b. induction a as [|x a IH]; intros Ha Hc H; [exact H|].
  simpl in Ha. apply andb_prop in Ha as [Hx Ha].
  simpl in H. apply orb_prop in H as [H|H]; [|exact (IH Ha Hc H)].
  destruct (ascii_dec c x) as [->|]; [congruence | discriminate].
Qed.

Lemma prefix_app_split : forall p a b,
  prefix p (a ++ b) = true ->
  prefix p a = true \/ exists c b', b = String c b' /\ In c (list_ascii_of_string p).
Proof.
  intros p a; revert p. induction a as [|x a IH]; intros p b H.
  - destruct p as [|y p]; [left; reflexivity|].
    destruct b as [|z b]; [discriminate|]. simpl in H.
    destruct (ascii_dec y z) as [<-|]; [|discriminate].
    right. exists y, b. split; [reflexivity | left; reflexivity].
  - destruct p as [|y p]; [left; apply prefix_empty|]. simpl in H |- *.
    destruct (ascii_dec y x); [|discriminate].
    destruct (IH p b H) as [H'|(c & b' & -> & Hc)]; [left; exact H'|].
    right. exists c, b'. split; [reflexivity | right; exact Hc].
Qed.

(** An occurrence in [a ++ b] lies in [a], lies in [b], or covers the first
    code unit of [b]. *)
Lemma includes_app_split : forall p a b,
  includes (a ++ b) p = true ->
  includes a p = true \/ includes b p = true \/
  exists c b', b = String c b' /\ In c (list_ascii_of_string p).
Proof.
  intros p a b. induction a as [|x a IH]; intro H; [right; left; exact H|].
  simpl in H. apply orb_prop in H as [H|H].
  - destruct (prefix_app_split p (String x a) b H) as [H'|H'].
    + left. apply includes_of_prefix, H'.
    + right; right; exact H'.
  - destruct (IH H) as [H'|H']; [left; apply includes_cons, H' | right; exact H'].
Qed.

Lemma prefix_split : forall p s, prefix p s = true -> exists b, s = p ++ b.
Proof.
  induction p as [|x p IH]; intros s H; [exists s; reflexivity|].
  destruct s as [|y s]; [discriminate|]. simpl in H.
  destruct (ascii_dec x y) as [<-|]; [|discriminate].
  destruct (IH s H) as [b ->]. exists b. reflexivity.
Qed.

Lemma includes_split : forall s p, includes s p = true -> exists a b, s = a ++ p ++ b.
Proof.
  induction s as [|c s IH]; intros p H.
  - destruct p as [|x p]; [exists "", ""; reflexivity | discriminate].
  - simpl in H. apply orb_prop in H as [H|H].
    + destruct (prefix_split p (String c s) H) as [b Hb]. exists "", b. exact Hb.
    + destruct (IH p H) as (a & b & ->). exists (String c a), b. reflexivity.
Qed.

Lemma append_empty_r : forall s, s ++ "" = s.
Proof. induction s as [|c s IH]; simpl; [reflexivity | now rewrite IH]. Qed.

Lemma string_forall_trim_start : forall f s,
  string_forall f s = true -> string_forall f (trim_start s) = true.
Proof.
  intros f s. induction s as [|c s IH]; intro H; [reflexivity|].
  simpl. destruct (is_js_space c); [|exact H].
  simpl in H. apply andb_prop in H as [_ H]. exact (IH H).
Qed.

Lemma string_forall_trim_end : forall f s,
  string_forall f s = true -> string_forall f (trim_end s) = true.
Proof.
  intros f s. induction s as [|c s IH]; intro H; [reflexivity|].
  simpl in H. apply andb_prop in H as [Hc H]. specialize (IH H).
  rewrite trim_end_cons. destruct (trim_end s) as [|c' r].
  - destruct (is_js_space c); simpl; [reflexivity | now rewrite Hc].
  - simpl. rewrite Hc. exact IH.
Qed.

Lemma string_forall_trim : forall f s,
  string_forall f s = true -> string_forall f (trim s) = true.
Proof. intros f s H. apply string_forall_trim_end, string_forall_trim_start, H. Qed.

(** [trim] empties only strings made of the code units it removes. *)
Lemma trim_empty_spaces : forall s, trim s = "" -> string_forall is_js_space s = true.
Proof.
  assert (E : forall s, trim_end s = "" -> string_forall is_js_space s = true).
  { induction s as [|c s IH]; intro H; [reflexivity|].
    rewrite trim_end_cons in H. destruct (trim_end s) eqn:T.
    - simpl. rewrite (IH eq_refl), andb_true_r.
      destruct (is_js_space c); [reflexivity | discriminate].
    - discriminate. }
  intros s H. apply E in H. unfold trim in H.
  induction s as [|c s IH]; [reflexivity|].
  simpl in H |- *. destruct (is_js_space c) eqn:Ec; [exact (IH H)|].
  simpl in H. rewrite Ec in H. discriminate H.
Qed.

Lemma white_space_lower : forall c,
  unicode_white_space c = true -> lower_char c = c.
Proof.
  assert (B : forall c, implb (unicode_white_space c) (Ascii.eqb (lower_char c) c) = true)
    by (intro c; all_chars c).
  intros c H. specialize (B c). rewrite H in B. now apply Ascii.eqb_eq.
Qed.

Lemma white_space_toLowerCase : forall s,
  string_forall unicode_white_space s = true -> toLowerCase s = s.
Proof.
  induction s as [|c s IH]; intro H; [reflexivity|].
  simpl in H |- *. apply andb_prop in H as [Hc H]. now rewrite white_space_lower, IH.
Qed.

Lemma white_space_not_h : forall c,
  unicode_white_space c = true -> Nat.eqb (canonicalize "h") (canonicalize c) = false.
Proof.
  assert (B : forall c, implb (unicode_white_space c)
                          (negb (Nat.eqb (canonicalize "h") (canonicalize c))) = true)
    by (intro c; all_chars c).
  intros c H. specialize (B c). rewrite H in B. now apply negb_true_iff.
Qed.

(** A url made of Unicode white space only is neither forbidden nor http(s). *)
Lemma white_space_unsupported : forall u,
  u <> "" -> string_forall unicode_white_space u = true -> validate u = UnsupportedScheme.
Proof.
  intros u Hne H. unfold validate. rewrite (white_space_toLowerCase u H).
  assert (Hf : forbidlist_hit u = false).
  { unfold forbidlist_hit.
    destruct (includes u "localhost") eqn:E1;
      [apply (includes_first_char unicode_white_space) in E1; [discriminate E1 | exact H]|].
    destruct (includes u "127.0.0.1") eqn:E2;
      [apply (includes_first_char unicode_white_space) in E2; [discriminate E2 | exact H]|].
    destruct (includes u "::1") eqn:E3;
      [apply (includes_first_char unicode_white_space) in E3; [discriminate E3 | exact H]|].
    reflexivity. }
  rewrite Hf. destruct u as [|c r]; [congruence|].
  simpl in H. apply andb_prop in H as [Hc _].
  unfold scheme_test. cbn [ci_prefix]. rewrite (white_space_not_h c Hc). reflexivity.
Qed.

(** C10, as the code has it: a [url] parameter made only of code units that
    [String.prototype.trim] removes (TAB, LF, VT, FF, CR, SPACE, NO-BREAK
    SPACE in the modelled range) gets 400 [{error: "url parameter required"}]
    with no network call, like a missing parameter.  A parameter made only
    of Unicode white space but containing a code unit that [trim] keeps
    (NEXT LINE, U+0085) is not emptied: it goes on to the Validation
    Policy, which rejects its scheme, and gets 400
    [{error: "only http and https allowed"}], again with no network call. *)
Theorem js_whitespace_param_required : forall fetch s,
  (string_forall is_js_space s = true ->
   run (api_fetch fetch (Some (QStr s))) =
     (Replied (reply_json 400 (JObj [("error", JStr "url parameter required")])), []) /\
   run (api_fetch fetch None) =
     (Replied (reply_json 400 (JObj [("error", JStr "url parameter required")])), [])) /\
  (string_forall unicode_white_space s = true -> string_forall is_js_space s = false ->
   trim s <> "" /\ validate (trim s) = UnsupportedScheme /\
   run (api_fetch fetch (Some (QStr s))) =
     (Replied (reply_json 400 (JObj [("error", JStr "only http and https allowed")])), [])).
Proof.
  intros fetch s. split.
  - intro H. split; [|reflexivity].
    rewrite api_fetch_str, (trim_only_spaces s H). reflexivity.
  - intros Hw Hj.
    assert (Hne : trim s <> "") by (intro E; apply trim_empty_spaces in E; congruence).
    assert (Hv : validate (trim s) = UnsupportedScheme)
      by exact (white_space_unsupported _ Hne (string_forall_trim _ _ Hw)).
    split; [exact Hne|]. split; [exact Hv|].
    rewrite api_fetch_str, Hv. apply String.eqb_neq in Hne. rewrite Hne. reflexivity.
Qed.

(** C10 fails as stated: NEXT LINE (U+0085) has the Unicode White_Space
    property, but [trim] keeps it; the parameter "\u0085" reaches the
    Validation Policy and gets the unsupported-scheme 400, not
    "url parameter required". *)
Lemma unicode_whitespace_param_validated :
  string_forall unicode_white_space (String "133" "") = true /\
  validate (String "133" "") = UnsupportedScheme /\
  run (api_fetch (fun _ => inr (mk_upstream 200 (inr "x"))) (Some (QStr (String "133" "")))) =
    (Replied (reply_json 400 (JObj [("error", JStr "only http and https allowed")])), []).
Proof. split; [|split]; reflexivity. Qed.

(** *** The numbers-and-dots parser *)

Lemma split_dots_cons : forall s, exists p ps, split_dots s = p :: ps.
Proof.
  induction s as [|c s (p & ps & IH)]; [exists "", []; reflexivity|].
  simpl. rewrite IH. destruct (Ascii.eqb c "."); eauto.
Qed.

Lemma length_split_dots_app : forall a b,
  length (split_dots (a ++ b)) = count_dots a + length (split_dots b).
Proof.
  induction a as [|c a IH]; intro b; [reflexivity|].
  simpl. destruct (split_dots_cons (a ++ b)) as (p & ps & E).
  specialize (IH b). rewrite E in IH |- *.
  destruct (Ascii.eqb c "."); simpl in *; lia.
Qed.

Lemma split_dots_app_nodots : forall a b, count_dots a = 0 ->
  split_dots (a ++ b) = match split_dots b with [] => [] | p :: ps => (a ++ p) :: ps end.
Proof.
  induction a as [|c a IH]; intros b H.
  - simpl. destruct (split_dots b); reflexivity.
  - simpl in H. destruct (Ascii.eqb c ".") eqn:Ec; [discriminate|]. simpl in H.
    simpl. rewrite (IH b H). destruct (split_dots b) as [|p ps]; [reflexivity|].
    now rewrite Ec.
Qed.

Lemma string_forall_split_dots : forall f s,
  f "."%char = true -> Forall (fun p => string_forall f p = true) (split_dots s) ->
  string_forall f s = true.
Proof.
  intros f s Hd. induction s as [|c s IH]; intro H; [reflexivity|].
  simpl in H. destruct (split_dots_cons s) as (p & ps & E). rewrite E in H, IH.
  simpl. destruct (Ascii.eqb c ".") eqn:Ec.
  - apply Ascii.eqb_eq in Ec. subst c. rewrite Hd. inversion H. exact (IH H3).
  - inversion H as [|x xs Hp Hps]. simpl in Hp. apply andb_prop in Hp as [Hc Hp].
    rewrite Hc. apply IH. constructor; assumption.
Qed.

Lemma parse_part_cons : forall c s,
  parse_part (String c s) =
  if Ascii.eqb c "0" then
    match s with
    | String x r =>
        if (Ascii.eqb x "x" || Ascii.eqb x "X")%bool then
          match r with EmptyString => None | _ => parse_radix 16 0 r end
        else parse_radix 8 0 s
    | EmptyString => parse_radix 10 0 (String c s)
    end
  else parse_radix 10 0 (String c s).
Proof. intros c s. destruct c as [[] [] [] [] [] [] [] []]; try reflexivity. destruct s; reflexivity. Qed.

Lemma parse_radix_chars : forall b acc s v,
  parse_radix b acc s = Some v -> string_forall ipv4_char s = true.
Proof.
  intros b acc s; revert acc. induction s as [|c s IH]; intros acc v H; [reflexivity|].
  simpl in H. destruct (digit_value c) as [d|] eqn:D; [|discriminate].
  destruct (d <? b)%Z; [|discriminate].
  simpl. unfold ipv4_char at 1. rewrite D. exact (IH _ _ H).
Qed.

Lemma parse_part_chars : forall s v, parse_part s = Some v -> string_forall ipv4_char s = true.
Proof.
  intros [|c s] v H; [discriminate|]. rewrite parse_part_cons in H.
  destruct (Ascii.eqb c "0") eqn:E0; [|exact (parse_radix_chars _ _ _ _ H)].
  apply Ascii.eqb_eq in E0. subst c.
  destruct s as [|x r]; [reflexivity|].
  destruct (Ascii.eqb x "x" || Ascii.eqb x "X")%bool eqn:Ex.
  - destruct r as [|y r]; [discriminate|]. apply parse_radix_chars in H.
    apply orb_prop in Ex as [Ex|Ex]; apply Ascii.eqb_eq in Ex; subst x; exact H.
  - exact (parse_radix_chars _ _ _ _ H).
Qed.

Lemma inet_aton_parts : forall s v, inet_aton s = Some v ->
  Forall (fun p => exists z, parse_part p = Some z) (split_dots s) /\
  length (split_dots s) <= 4.
Proof.
  intros s v. unfold inet_aton.
  destruct (split_dots s) as [|p1 [|p2 [|p3 [|p4 [|p5 ps]]]]]; simpl; intro H;
    try discriminate H;
    repeat (match type of H with context [parse_part ?p] =>
              destruct (parse_part p) eqn:?; simpl in H end);
    try discriminate H;
    split; try (simpl; lia); repeat constructor; eauto.
Qed.

Lemma inet_aton_chars : forall s v, inet_aton s = Some v -> string_forall ipv4_char s = true.
Proof.
  intros s v H. apply string_forall_split_dots; [reflexivity|].
  destruct (inet_aton_parts s v H) as [HF _].
  eapply Forall_impl; [|exact HF]. intros p [z Hz]. exact (parse_part_chars p z Hz).
Qed.

Lemma digit_value_nonneg : forall c d, digit_value c = Some d -> (0 <= d)%Z.
Proof.
  assert (B : forall c, match digit_value c with Some d => Z.leb 0 d | None => true end = true)
    by (intro c; all_chars c).
  intros c d H. specialize (B c). rewrite H in B. now apply Z.leb_le.
Qed.

Lemma digit_value_zero_char : forall c,
  match digit_value c with Some 0%Z => Ascii.eqb c "0" | _ => true end = true.
Proof. intro c; all_chars c. Qed.

Lemma parse_radix_ge : forall b acc s v, (0 < b)%Z -> (0 <= acc)%Z ->
  parse_radix b acc s = Some v -> (acc * b ^ Z.of_nat (String.length s) <= v)%Z.
Proof.
  intros b acc s; revert acc. induction s as [|c s IH]; intros acc v Hb Hacc H.
  - injection H as <-. simpl. lia.
  - simpl in H. destruct (digit_value c) as [d|] eqn:D; [|discriminate].
    destruct (d <? b)%Z; [|discriminate].
    pose proof (digit_value_nonneg c d D) as Hd.
    assert (Hacc' : (0 <= acc * b + d)%Z) by nia.
    specialize (IH _ v Hb Hacc' H).
    cbn [String.length]. rewrite Nat2Z.inj_succ, Z.pow_succ_r by lia.
    pose proof (Z.pow_pos_nonneg b (Z.of_nat (String.length s)) Hb (Nat2Z.is_nonneg _)).
    nia.
Qed.

Lemma parse_radix_app : forall b acc x y,
  parse_radix b acc (x ++ y) =
  match parse_radix b acc x with Some v => parse_radix b v y | None => None end.
Proof.
  intros b acc x; revert acc. induction x as [|c x IH]; intros acc y; [reflexivity|].
  simpl. destruct (digit_value c); [|reflexivity].
  destruct (_ <? b)%Z; [apply IH | reflexivity].
Qed.

Lemma parse_part_nonneg : forall s v, parse_part s = Some v -> (0 <= v)%Z.
Proof.
  assert (R : forall b s v, (0 < b)%Z -> parse_radix b 0 s = Some v -> (0 <= v)%Z).
  { intros b s v Hb H. pose proof (parse_radix_ge b 0 s v Hb (Z.le_refl 0) H). lia. }
  intros [|c s] v H; [discriminate|]. rewrite parse_part_cons in H.
  destruct (Ascii.eqb c "0"); [|exact (R 10%Z _ _ eq_refl H)].
  destruct s as [|x r]; [exact (R 10%Z _ _ eq_refl H)|].
  destruct (Ascii.eqb x "x" || Ascii.eqb x "X")%bool; [|exact (R 8%Z _ _ eq_refl H)].
  destruct r; [discriminate | exact (R 16%Z _ _ eq_refl H)].
Qed.

(** A dotted number whose last digits are [127] is 127 only when it is
    [127] itself: in octal it is 87 plus a multiple of 512, in hexadecimal
    295 plus a multiple of 4096, in decimal 127 plus 1000 times its other
    digits, whose first is not 0. *)
Lemma parse_part_ends_127 : forall a, parse_part (a ++ "127") = Some 127%Z -> a = "".
Proof.
  intros [|c a] H; [reflexivity|]. exfalso.
  change (String c a ++ "127") with (String c (a ++ "127")) in H.
  rewrite parse_part_cons in H.
  destruct (Ascii.eqb c "0") eqn:E0.
  - destruct a as [|x a]; [vm_compute in H; discriminate H|].
    change (String x a ++ "127") with (String x (a ++ "127")) in H.
    cbv beta iota in H.
    destruct (Ascii.eqb x "x" || Ascii.eqb x "X")%bool.
    + assert (H' : parse_radix 16 0 (a ++ "127") = Some 127%Z)
        by (revert H; destruct (a ++ "127"); intro H; [discriminate H | exact H]).
      rewrite parse_radix_app in H'.
      destruct (parse_radix 16 0 a) as [w|] eqn:W; [|discriminate].
      pose proof (parse_radix_ge 16 0 a w eq_refl (Z.le_refl 0) W).
      simpl in H'. injection H' as H'. lia.
    + change (String x (a ++ "127")) with (String x a ++ "127") in H.
      rewrite parse_radix_app in H.
      destruct (parse_radix 8 0 (String x a)) as [w|] eqn:W; [|discriminate].
      pose proof (parse_radix_ge 8 0 _ w eq_refl (Z.le_refl 0) W).
      simpl in H. injection H as H. lia.
  - change (String c (a ++ "127")) with (String c a ++ "127") in H.
    rewrite parse_radix_app in H.
    destruct (parse_radix 10 0 (String c a)) as [w|] eqn:W; [|discriminate].
    simpl in H. injection H as H. assert (w = 0%Z) as -> by lia.
    simpl in W. pose proof (digit_value_zero_char c) as Z0.
    destruct (digit_value c) as [d|] eqn:D; [|discriminate].
    destruct (d <? 10)%Z; [|discriminate].
    pose proof (digit_value_nonneg c d D).
    pose proof (fun h => parse_radix_ge 10 _ a 0 eq_refl h W) as Hge.
    specialize (Hge ltac:(lia)).
    pose proof (Z.pow_pos_nonneg 10 (Z.of_nat (String.length a)) eq_refl (Nat2Z.is_nonneg _)).
    assert (d = 0%Z) as -> by nia. rewrite E0 in Z0. discriminate.
Qed.

(** The only numbers-and-dots spelling of 127.0.0.1 that contains the text
    "127.0.0.1" is "127.0.0.1" itself. *)
Lemma inet_aton_loopback_literal : forall s,
  inet_aton s = Some 2130706433%Z -> includes s "127.0.0.1" = true -> s = "127.0.0.1".
Proof.
  intros s H Hi. destruct (includes_split s _ Hi) as (a & b & ->).
  destruct (inet_aton_parts _ _ H) as [_ Hlen].
  rewrite length_split_dots_app, length_split_dots_app in Hlen.
  pose proof (length_split_dots_app b "") as Hb. rewrite append_empty_r in Hb.
  change (count_dots "127.0.0.1") with 3 in Hlen. simpl in Hb.
  assert (Ha0 : count_dots a = 0) by lia.
  assert (Hb0 : count_dots b = 0) by lia.
  pose proof (split_dots_app_nodots b "" Hb0) as Sb.
  simpl in Sb. rewrite !append_empty_r in Sb.
  unfold inet_aton in H. rewrite (split_dots_app_nodots a _ Ha0) in H.
  change ("127.0.0.1" ++ b) with
    (String "1" (String "2" (String "7" (String "." (String "0" (String "."
      (String "0" (String "." (String "1" b))))))))) in H.
  simpl split_dots in H. rewrite Sb in H. simpl in H.
  destruct (parse_part (a ++ "127")) as [x|] eqn:Ex; [|discriminate H].
  destruct (parse_radix 10 1 b) as [d|] eqn:Ed; [|discriminate H].
  pose proof (parse_part_nonneg _ _ Ex).
  pose proof (parse_radix_ge 10 1 b d eq_refl ltac:(lia) Ed).
  destruct (x <? 256)%Z eqn:Hc; [|discriminate H].
  destruct (d <? 256)%Z eqn:Hd; [|discriminate H].
  apply Z.ltb_lt in Hc, Hd. simpl in H. injection H as H.
  assert (x = 127%Z) as -> by lia. assert (d = 1%Z) as -> by lia.
  rewrite (parse_part_ends_127 a Ex).
  destruct b as [|c b]; [reflexivity|]. exfalso.
  cbn [String.length] in *. rewrite Nat2Z.inj_succ, Z.pow_succ_r in * by lia.
  pose proof (Z.pow_pos_nonneg 10 (Z.of_nat (String.length b)) eq_refl (Nat2Z.is_nonneg _)).
  lia.
Qed.

Lemma forbidlist_hit_after_scheme : forall y,
  forbidlist_hit ("http://" ++ y) = forbidlist_hit y /\
  forbidlist_hit ("https://" ++ y) = forbidlist_hit y.
Proof. intro y. split; reflexivity. Qed.

(** C2: the forbidlist is a substring check only.  An http(s) url (scheme
    in any case) whose host is any numbers-and-dots spelling of 127.0.0.1
    (single decimal, octal or hexadecimal number, or dotted parts in those
    notations, such as 2130706433, 0177.0.0.1, 0x7f.0x0.0x0.0x1 or 0x7f.1)
    other than the literal 127.0.0.1, followed by nothing or by a port,
    path, query or fragment free of the forbidden substrings, is allowed by
    the Validation Policy. *)
Theorem loopback_encoding_allowed : forall scheme host rest,
  toLowerCase scheme = "http://" \/ toLowerCase scheme = "https://" ->
  inet_aton (toLowerCase host) = Some 2130706433%Z ->
  toLowerCase host <> "127.0.0.1" ->
  rest = "" \/ (exists d r, rest = String d r /\ In d [":"; "/"; "?"; "#"]%char) ->
  forbidlist_hit (toLowerCase rest) = false ->
  validate (scheme ++ host ++ rest) = Allowed.
Proof.
  intros scheme host rest Hs Hh Hne Hr Hf.
  unfold validate. rewrite <- (scheme_test_lower (scheme ++ host ++ rest)).
  rewrite !toLowerCase_app.
  assert (Hr' : toLowerCase rest = "" \/
                exists d r, toLowerCase rest = String d r /\ In d [":"; "/"; "?"; "#"]%char).
  { destruct Hr as [->|(d & r & -> & Hd)]; [left; reflexivity|].
    right. exists d, (toLowerCase r). split; [|exact Hd]. simpl.
    simpl in Hd. repeat (destruct Hd as [<-|Hd]; [reflexivity|]). contradiction. }
  clear Hr. pose proof (inet_aton_chars _ _ Hh) as Hc.
  set (L := toLowerCase host) in *. set (R := toLowerCase rest) in *.
  assert (Hfb : forbidlist_hit (L ++ R) = false).
  { unfold forbidlist_hit in Hf |- *.
    rewrite !orb_false_iff in Hf. destruct Hf as [[Hf1 Hf2] Hf3].
    destruct (includes (L ++ R) "localhost") eqn:E1.
    { exfalso. apply (includes_app_first ipv4_char) in E1; [congruence | exact Hc | reflexivity]. }
    destruct (includes (L ++ R) "::1") eqn:E3.
    { exfalso. apply (includes_app_first ipv4_char) in E3; [congruence | exact Hc | reflexivity]. }
    destruct (includes (L ++ R) "127.0.0.1") eqn:E2; [exfalso|reflexivity].
    destruct (includes_app_split _ _ _ E2) as [E|[E|(d & r & Er & Hd)]].
    - exact (Hne (inet_aton_loopback_literal L Hh E)).
    - congruence.
    - destruct Hr' as [Hr'|(d' & r' & Er' & Hd')]; [congruence|].
      rewrite Er in Er'. injection Er' as <- _.
      simpl in Hd, Hd'.
      repeat (destruct Hd' as [<-|Hd']; [intuition discriminate|]). exact Hd'. }
  destruct Hs as [Hs|Hs]; rewrite Hs.
  - rewrite (proj1 (forbidlist_hit_after_scheme _)), Hfb. reflexivity.
  - rewrite (proj2 (forbidlist_hit_after_scheme _)), Hfb. reflexivity.
Qed.

Lemma loopback_encoding_allowed_witness :
  validate ("HTTP://" ++ "0x7F.1" ++ ":8000/internal/flag") = Allowed.
Proof.
  refine (loopback_encoding_allowed "HTTP://" "0x7F.1" ":8000/internal/flag" _ _ _ _ _).
  - left; vm_compute; reflexivity.
  - vm_compute; reflexivity.
  - vm_compute; discriminate.
  - right. exists ":"%char, "8000/internal/flag". split; [reflexivity | simpl; auto].
  - vm_compute; reflexivity.
Defined.

(** ** Fetch Pipeline: truncation and the success response *)

Lemma length_append : forall a b, String.length (a ++ b) = String.length a + String.length b.
Proof. induction a as [|c a IH]; intro b; simpl; [reflexivity | now rewrite IH]. Qed.

Lemma length_slice0 : forall s n, n <= String.length s -> String.length (slice0 s n) = n.
Proof.
  unfold slice0. induction s as [|c s IH]; intros [|n] H; simpl in *; try lia.
  rewrite IH; lia.
Qed.

Lemma length_slice0_le : forall s n, String.length (slice0 s n) <= n.
Proof.
  unfold slice0. induction s as [|c s IH]; intros [|n]; simpl; try lia.
  specialize (IH n); lia.
Qed.

Lemma prefix_slice0 : forall s n, prefix (slice0 s n) s = true.
Proof.
  unfold slice0. induction s as [|c s IH]; intros [|n]; simpl; try reflexivity;
    try apply prefix_empty.
  destruct (ascii_dec c c); [apply IH | congruence].
Qed.

(** A 200 reply of the gateway comes from a fetched response whose body was
    read. *)
Lemma api_fetch_200 : forall fetch q r log,
  run (api_fetch fetch q) = (Replied r, log) -> res_status r = 200%Z ->
  exists s resp text,
    q = Some (QStr s) /\ fetch (trim s) = inr resp /\ r_text resp = inr text /\
    r = reply_json 200 (JObj [("status", JNum (r_status resp)); ("url", JStr (trim s));
                              ("body", JStr (snippet_of text))]) /\
    log = [trim s].
Proof.
  intros fetch [[s|items|fields]|] r log H Hst; try discriminate H;
    [| injection H as <- _; discriminate].
  rewrite api_fetch_str in H.
  destruct (String.eqb (trim s) ""); [injection H as <- _; discriminate|].
  destruct (validate (trim s)); try (injection H as <- _; discriminate).
  injection H as Hr <-. unfold fetched_reply in Hr.
  destruct (fetch (trim s)) as [e|resp] eqn:F; [injection Hr as <-; discriminate|].
  destruct (r_text resp) as [e|text] eqn:T; [injection Hr as <-; discriminate|].
  injection Hr as <-. exists s, resp, text. repeat split; assumption.
Qed.

(** C4: a body longer than 2000 characters becomes its first 2000
    characters followed by the marker; a shorter one is unchanged; so the
    body of every success response has at most 2000 characters plus the
    marker's length.  A 2500-character body gives 2000 characters and the
    marker, a 1500-character body comes back as it is. *)
Theorem body_truncation : forall text,
  (2000 < String.length text ->
     snippet_of text = slice0 text 2000 ++ truncation_marker /\
     String.length (slice0 text 2000) = 2000 /\ prefix (slice0 text 2000) text = true) /\
  (String.length text <= 2000 -> snippet_of text = text) /\
  String.length (snippet_of text) <= 2000 + String.length truncation_marker /\
  (forall fetch q r log,
     run (api_fetch fetch q) = (Replied r, log) -> res_status r = 200%Z ->
     exists st url body,
       res_body r = inr (JObj [("status", JNum st); ("url", JStr url); ("body", JStr body)]) /\
       String.length body <= 2000 + String.length truncation_marker) /\
  snippet_of (replicate 2500 "a") = replicate 2000 "a" ++ truncation_marker /\
  snippet_of (replicate 1500 "a") = replicate 1500 "a".
Proof.
  intro text.
  assert (Hlen : forall t, String.length (snippet_of t) <= 2000 + String.length truncation_marker).
  { intro t. unfold snippet_of. destruct (Nat.ltb 2000 (String.length t)) eqn:L.
    - rewrite length_append. pose proof (length_slice0_le t 2000). lia.
    - apply Nat.ltb_ge in L. simpl. lia. }
  split; [|split; [|split; [|split; [|split]]]].
  - intro H. unfold snippet_of. apply Nat.ltb_lt in H as H'. rewrite H'.
    split; [reflexivity|]. split; [apply length_slice0; lia | apply prefix_slice0].
  - intro H. unfold snippet_of. apply Nat.ltb_ge in H. now rewrite H.
  - apply Hlen.
  - intros fetch q r log H Hst.
    destruct (api_fetch_200 fetch q r log H Hst) as (s & resp & t & _ & _ & _ & -> & _).
    exists (r_status resp), (trim s), (snippet_of t). split; [reflexivity | apply Hlen].
  - vm_compute. reflexivity.
  - vm_compute. reflexivity.
Qed.

(** C5 fails as stated: the success response has no [truncated] field.
    Here the upstream body has 2500 characters and is cut, and the 200 reply
    has the fields status, url and body only. *)
Lemma success_reply_lacks_truncated :
  match fst (run (api_fetch (fun _ => inr (mk_upstream 200 (inr (replicate 2500 "a"))))
                            (Some (QStr "http://example.com/")))) with
  | Replied r =>
      res_status r = 200%Z /\
      match res_body r with
      | inr (JObj fields) =>
          json_field "truncated" fields = None /\ map fst fields = ["status"; "url"; "body"]
      | _ => False
      end
  | Threw _ => False
  end.
Proof. vm_compute. split; [reflexivity | split; reflexivity]. Qed.

(** C5, as the code has it: every success response comes from the one
    fetch of the trimmed [url] parameter whose body was read; it is a JSON
    object with exactly the fields status, url and body, and no [truncated]
    field: status is the fetched response's status, url the trimmed
    parameter, and body the fetched text cut to 2000 characters plus the
    marker exactly when the text is longer than 2000 characters. *)
Theorem success_reply_fields : forall fetch q r log,
  run (api_fetch fetch q) = (Replied r, log) -> res_status r = 200%Z ->
  exists s resp text fields,
    q = Some (QStr s) /\ log = [trim s] /\
    fetch (trim s) = inr resp /\ r_text resp = inr text /\
    res_body r = inr (JObj fields) /\
    map fst fields = ["status"; "url"; "body"] /\
    json_field "truncated" fields = None /\
    json_field "status" fields = Some (JNum (r_status resp)) /\
    json_field "url" fields = Some (JStr (trim s)) /\
    json_field "body" fields =
      Some (JStr (if Nat.ltb 2000 (String.length text)
                  then slice0 text 2000 ++ truncation_marker else text)).
Proof.
  intros fetch q r log H Hst.
  destruct (api_fetch_200 fetch q r log H Hst) as (s & resp & t & Hq & Hf & Ht & -> & Hl).
  eexists s, resp, t, _. repeat split; try reflexivity; assumption.
Qed.

Lemma success_reply_fields_witness :
  exists r log,
    run (api_fetch (fun _ => inr (mk_upstream 404 (inr "not found")))
                   (Some (QStr " http://0x7f.1:8000/ "))) = (Replied r, log) /\
    res_status r = 200%Z /\
    exists s resp text fields,
      Some (QStr " http://0x7f.1:8000/ ") = Some (QStr s) /\ log = [trim s] /\
      (fun _ : string => inr (mk_upstream 404 (inr "not found")) : fetch_error + upstream)
        (trim s) = inr resp /\
      r_text resp = inr text /\
      res_body r = inr (JObj fields) /\
      map fst fields = ["status"; "url"; "body"] /\
      json_field "truncated" fields = None /\
      json_field "status" fields = Some (JNum (r_status resp)) /\
      json_field "url" fields = Some (JStr (trim s)) /\
      json_field "body" fields =
        Some (JStr (if Nat.ltb 2000 (String.length text)
                    then slice0 text 2000 ++ truncation_marker else text)).
Proof.
  exists (reply_json 200 (JObj [("status", JNum 404); ("url", JStr "http://0x7f.1:8000/");
                                ("body", JStr "not found")])),
         ["http://0x7f.1:8000/"].
  split; [vm_compute; reflexivity|]. split; [reflexivity|].
  refine (success_reply_fields (fun _ => inr (mk_upstream 404 (inr "not found")))
            (Some (QStr " http://0x7f.1:8000/ ")) _ ["http://0x7f.1:8000/"] _ _);
    vm_compute; reflexivity.
Defined.

(** ** Fetch failures *)

(** C8 fails as stated: the [catch] takes every rejection, not only network
    failures and timeouts.  An upstream that keeps redirecting makes
    [node-fetch] reject with a max-redirect error, and the gateway answers
    500 "fetch failed". *)
Lemma redirect_loop_gives_500 :
  let f := fun _ : string =>
    inl (mk_fetch_error TooManyRedirects
           "FetchError: maximum redirect reached at: http://example.com/loop")
    : fetch_error + upstream in
  (exists e, f "http://example.com/loop" = inl e /\
             fe_kind e <> NetworkFailure /\ fe_kind e <> TimeoutExpired) /\
  fst (run (api_fetch f (Some (QStr "http://example.com/loop")))) =
    Replied (reply_json 500
      (JObj [("error", JStr "fetch failed");
             ("detail", JStr "FetchError: maximum redirect reached at: http://example.com/loop")])).
Proof.
  cbv zeta. split; [|vm_compute; reflexivity].
  eexists. split; [reflexivity|]. split; discriminate.
Qed.

(** C8, as the code has it: for a url the Validation Policy allows, the
    gateway answers 500 [{error: "fetch failed", detail: String(e)}] when
    [fetch] or [r.text()] rejects with [e], for any reason; when the final
    response of the redirect chain is read, whatever its status, it answers
    200 and carries that status. *)
Theorem fetch_failure_500 : forall fetch s,
  trim s <> "" -> validate (trim s) = Allowed ->
  (forall e, (fetch (trim s) = inl e \/
              exists resp, fetch (trim s) = inr resp /\ r_text resp = inl e) ->
     run (api_fetch fetch (Some (QStr s))) =
       (Replied (reply_json 500 (JObj [("error", JStr "fetch failed");
                                      ("detail", JStr (fe_string e))])), [trim s])) /\
  (forall resp text, fetch (trim s) = inr resp -> r_text resp = inr text ->
     run (api_fetch fetch (Some (QStr s))) =
       (Replied (reply_json 200 (JObj [("status", JNum (r_status resp));
                                      ("url", JStr (trim s));
                                      ("body", JStr (snippet_of text))])), [trim s])).
Proof.
  intros fetch s Hne Hv.
  assert (Hrun : run (api_fetch fetch (Some (QStr s))) =
                 (fetched_reply (trim s) (fetch (trim s)), [trim s])).
  { rewrite api_fetch_str, Hv. apply String.eqb_neq in Hne. now rewrite Hne. }
  rewrite Hrun. unfold fetched_reply. split.
  - intros e [F | (resp & F & T)]; rewrite F; [reflexivity|]. now rewrite T.
  - intros resp text F T. now rewrite F, T.
Qed.

Lemma fetch_failure_500_witness :
  trim "http://2130706433:8000/" <> "" /\ validate (trim "http://2130706433:8000/") = Allowed /\
  run (api_fetch (fun _ => inl (mk_fetch_error TimeoutExpired "FetchError: network timeout"))
                 (Some (QStr "http://2130706433:8000/"))) =
    (Replied (reply_json 500 (JObj [("error", JStr "fetch failed");
                                   ("detail", JStr "FetchError: network timeout")])),
     [trim "http://2130706433:8000/"]).
Proof.
  assert (Hne : trim "http://2130706433:8000/" <> "") by discriminate.
  assert (Hv : validate (trim "http://2130706433:8000/") = Allowed) by (vm_compute; reflexivity).
  split; [exact Hne|]. split; [exact Hv|].
  apply (proj1 (fetch_failure_500
                  (fun _ => inl (mk_fetch_error TimeoutExpired "FetchError: network timeout"))
                  "http://2130706433:8000/" Hne Hv)
           (mk_fetch_error TimeoutExpired "FetchError: network timeout")).
  left; reflexivity.
Defined.

(** ** Internal Service *)

Section Loopback.

Variable delivered : ip -> ip -> bool.

(** RFC 1122, 3.2.1.3 (g): an address of 127.0.0.0/8 never appears on a
    network outside the host, so a segment addressed to a loopback address
    comes from a loopback source. *)
Hypothesis loopback_stays_local : forall src dst,
  delivered src dst = true -> is_loopback dst = true -> is_loopback src = true.

(** C6: whatever the environment, the internal service makes exactly one
    listen call, on port 8000 and the loopback address 127.0.0.1 (never the
    wildcard); a connection that reaches it is addressed to 127.0.0.1:8000
    and comes from a loopback source. *)
Theorem internal_listener_loopback_only : forall e,
  filter (fun l => match l_app l with InternalApp => true | PublicApp => false end)
         (startup_listens e) =
    [mk_listen InternalApp (PortNum 8000) (Some "127.0.0.1")] /\
  forall c, established delivered (startup_listens e) InternalApp c ->
    c_dst c = V4 2130706433 /\ c_port c = 8000%Z /\ is_loopback (c_src c) = true.
Proof.
  intro e. split; [reflexivity|].
  intros c (Hdel & l & Hin & Happ & Hport & Hbind).
  simpl in Hin. destruct Hin as [<- | [<- | []]]; [|discriminate Happ].
  cbn [l_port l_host port_matches] in Hport. apply Z.eqb_eq in Hport.
  unfold bind_matches in Hbind. cbn [l_host] in Hbind.
  replace (inet_aton "127.0.0.1") with (Some 2130706433%Z) in Hbind by reflexivity.
  destruct (c_dst c) as [a|a] eqn:D; [|discriminate Hbind].
  cbn [ip_eqb] in Hbind. apply Z.eqb_eq in Hbind. subst a.
  split; [reflexivity|]. split; [unfold INTERNAL_PORT in Hport; lia|].
  apply (loopback_stays_local _ (c_dst c)); rewrite D; [exact Hdel | reflexivity].
Qed.

End Loopback.

Lemma internal_listener_loopback_only_witness :
  filter (fun l => match l_app l with InternalApp => true | PublicApp => false end)
         (startup_listens (mk_env None (Some "8000"))) =
    [mk_listen InternalApp (PortNum 8000) (Some "127.0.0.1")].
Proof.
  refine (proj1 (internal_listener_loopback_only
                   (fun s d => negb (is_loopback d) || is_loopback s) _
                   (mk_env None (Some "8000")))).
  intros s d H1 H2. rewrite H2 in H1. exact H1.
Defined.

Lemma internal_run_flag : forall st rqs,
  fst (internal_run st rqs) = st /\
  Forall2 (fun rq r => rq = GetInternalFlag ->
             r = mk_response 200 "text/plain; charset=utf-8"
                   (inl ("admin-secret: " ++ st_flag st ++ String "010" "")))
          rqs (snd (internal_run st rqs)).
Proof.
  intros st rqs. induction rqs as [|rq rqs [IH1 IH2]]; [split; constructor|].
  cbn [internal_run]. destruct (internal_step st rq) as [st1 r] eqn:S.
  assert (st1 = st) as -> by (destruct rq; injection S; auto).
  destruct (internal_run st rqs) as [st' rs] eqn:E. simpl in IH1, IH2 |- *.
  split; [exact IH1|]. constructor; [|exact IH2].
  intros ->. injection S as <-. reflexivity.
Qed.

(** C9 fails as stated: with [FLAG] set to the empty string, the secret is
    not that value but the placeholder, since [||] treats "" as missing. *)
Lemma empty_FLAG_gives_placeholder :
  env_FLAG (mk_env (Some "") None) = Some "" /\
  snd (internal_run (internal_init (mk_env (Some "") None)) [GetInternalFlag]) =
    [mk_response 200 "text/plain; charset=utf-8"
       (inl ("admin-secret: FLAG{ssrf_decimal_wrap}" ++ String "010" ""))] /\
  "admin-secret: FLAG{ssrf_decimal_wrap}" ++ String "010" "" <>
    "admin-secret: " ++ "" ++ String "010" "".
Proof. split; [reflexivity | split; [reflexivity | discriminate]]. Qed.

(** C9, as the code has it: [GET /internal/flag] answers 200, plain text,
    exactly "admin-secret: " followed by the secret and a newline, where the
    secret is [FLAG] when it is set and non-empty and the placeholder
    "FLAG{ssrf_decimal_wrap}" otherwise; the service's state never changes
    while it handles requests. *)
Theorem internal_flag_response : forall e rqs,
  fst (internal_run (internal_init e) rqs) = internal_init e /\
  Forall2 (fun rq r => rq = GetInternalFlag ->
             r = mk_response 200 "text/plain; charset=utf-8"
                   (inl ("admin-secret: " ++
                         match env_FLAG e with
                         | Some v => if String.eqb v "" then "FLAG{ssrf_decimal_wrap}" else v
                         | None => "FLAG{ssrf_decimal_wrap}"
                         end ++ String "010" "")))
          rqs (snd (internal_run (internal_init e) rqs)).
Proof. intros e rqs. exact (internal_run_flag (internal_init e) rqs). Qed.

(** * Further properties of the handler, the policy and the internal service *)

(** ** [trim] and [toLowerCase] *)

Lemma trim_start_shape : forall s,
  trim_start s = "" \/ exists c r, trim_start s = String c r /\ is_js_space c = false.
Proof.
  induction s as [|c s IH]; [left; reflexivity|]. simpl.
  destruct (is_js_space c) eqn:E; [exact IH|]. right. eauto.
Qed.

Lemma trim_end_idem : forall s, trim_end (trim_end s) = trim_end s.
Proof.
  induction s as [|c s IH]; [reflexivity|]. rewrite (trim_end_cons c s).
  destruct (trim_end s) as [|c' r] eqn:E.
  - destruct (is_js_space c) eqn:Ec; [reflexivity|]. simpl. now rewrite Ec.
  - rewrite trim_end_cons, IH. reflexivity.
Qed.

Lemma trim_start_trim_end : forall c r, is_js_space c = false ->
  trim_start (trim_end (String c r)) = trim_end (String c r).
Proof.
  intros c r Hc. cbn [trim_end].
  destruct (trim_end r); [rewrite Hc|]; simpl; now rewrite Hc.
Qed.

Lemma trim_idem : forall s, trim (trim s) = trim s.
Proof.
  intro s. unfold trim.
  destruct (trim_start_shape s) as [-> | (c & r & -> & Hc)]; [reflexivity|].
  rewrite trim_start_trim_end by exact Hc. apply trim_end_idem.
Qed.

Lemma lower_char_idem : forall c, lower_char (lower_char c) = lower_char c.
Proof. intro c; all_chars c. Qed.

Lemma toLowerCase_idem : forall s, toLowerCase (toLowerCase s) = toLowerCase s.
Proof. induction s as [|c s IH]; simpl; [reflexivity|]. now rewrite lower_char_idem, IH. Qed.

Lemma includes_app_r : forall a b p, includes b p = true -> includes (a ++ b) p = true.
Proof. induction a as [|c a IH]; intros b p H; [exact H|]. apply includes_cons, IH, H. Qed.

Lemma prefix_app : forall p a b, prefix p a = true -> prefix p (a ++ b) = true.
Proof.
  intros p a; revert p. induction a as [|c a IH]; intros [|x p] b H; try apply prefix_empty.
  - discriminate.
  - simpl in *. destruct (ascii_dec x c); [apply IH, H | discriminate].
Qed.

Lemma includes_app_l : forall a b p, includes a p = true -> includes (a ++ b) p = true.
Proof.
  induction a as [|c a IH]; intros b p H.
  - destruct p as [|x p]; [apply includes_empty_pat | discriminate].
  - simpl in H. apply orb_prop in H as [H|H].
    + apply includes_of_prefix. apply (prefix_app p (String c a) b H).
    + apply includes_cons, IH, H.
Qed.

(** Per-character agreement of the regex's case folding with [toLowerCase],
    for the characters of the two scheme patterns. *)
Lemma canonicalize_scheme_char : forall a c,
  In a ["h"; "t"; "p"; "s"; ":"; "/"]%char ->
  Nat.eqb (canonicalize a) (canonicalize c) = Ascii.eqb a (lower_char c).
Proof.
  intros a c Ha. simpl in Ha.
  repeat (destruct Ha as [<-|Ha]; [all_chars c|]). contradiction.
Qed.

Lemma ci_prefix_as_prefix : forall p s,
  (forall a, In a (list_ascii_of_string p) -> In a ["h"; "t"; "p"; "s"; ":"; "/"]%char) ->
  ci_prefix p s = prefix p (toLowerCase s).
Proof.
  induction p as [|a p IH]; intros s Hp; [symmetry; apply prefix_empty|].
  destruct s as [|c s]; [reflexivity|]. simpl.
  rewrite canonicalize_scheme_char by (apply Hp; left; reflexivity).
  rewrite IH by (intros x Hx; apply Hp; right; exact Hx).
  destruct (ascii_dec a (lower_char c)) as [<-|Hne].
  - now rewrite Ascii.eqb_refl.
  - apply Ascii.eqb_neq in Hne. now rewrite Hne.
Qed.

(** ** Gateway *)

Ltac reply_shape :=
  simpl; split; [reflexivity|]; split; [lia|];
  eexists; split; [reflexivity|]; intros; eexists; reflexivity.

(** X1: the handler only sees the trimmed parameter: surrounding whitespace
    changes neither the reply nor the network calls. *)
Theorem api_fetch_trim_invariant : forall fetch s,
  run (api_fetch fetch (Some (QStr s))) = run (api_fetch fetch (Some (QStr (trim s)))).
Proof. intros fetch s. rewrite !api_fetch_str, trim_idem. reflexivity. Qed.

(** X2: the Validation Policy ignores letter case: lowercasing the url does
    not change its decision. *)
Theorem validate_case_insensitive : forall u, validate (toLowerCase u) = validate u.
Proof.
  intro u. unfold validate. rewrite toLowerCase_idem, scheme_test_lower. reflexivity.
Qed.

(** X3: the scheme check [/^https?:\/\//i] accepts exactly the urls whose
    lowercased form starts with "http://" or "https://". *)
Theorem scheme_test_lowercase_prefix : forall u,
  scheme_test u = prefix "http://" (toLowerCase u) || prefix "https://" (toLowerCase u).
Proof.
  intro u. unfold scheme_test.
  rewrite !ci_prefix_as_prefix; [reflexivity| |];
    intros a Ha; simpl in Ha; simpl; intuition.
Qed.

(** X4: the handler throws, with no network call, exactly when [url] is an
    array or an object, which has no [trim]; otherwise it replies with JSON
    ([application/json; charset=utf-8]): status 200, 400, 403 or 500, a JSON
    object as body, and an [error] text field whenever the status is not
    200. *)
Theorem api_fetch_reply_shape : forall fetch q,
  ((exists msg, fst (run (api_fetch fetch q)) = Threw msg) <->
   ((exists items, q = Some (QArr items)) \/ (exists fs, q = Some (QObj fs)))) /\
  match run (api_fetch fetch q) with
  | (Threw _, log) => log = []
  | (Replied r, _) =>
      res_content_type r = "application/json; charset=utf-8" /\
      (res_status r = 200 \/ res_status r = 400 \/ res_status r = 403 \/ res_status r = 500)%Z /\
      exists fields, res_body r = inr (JObj fields) /\
        (res_status r <> 200%Z -> exists m, json_field "error" fields = Some (JStr m))
  end.
Proof.
  intros fetch [[s|items|fs]|].
  - split.
    + split; [|intros [(i & Hi)|(f & Hf)]; discriminate].
      intros [msg Hm]. exfalso. rewrite api_fetch_str in Hm.
      destruct (String.eqb (trim s) ""); [discriminate|].
      destruct (validate (trim s)); try discriminate.
      unfold fetched_reply in Hm. destruct (fetch (trim s)) as [e|resp]; [discriminate|].
      destruct (r_text resp); discriminate.
    + rewrite api_fetch_str.
      destruct (String.eqb (trim s) ""); [reply_shape|].
      destruct (validate (trim s)); [|reply_shape|reply_shape].
      unfold fetched_reply. destruct (fetch (trim s)) as [e|resp]; [reply_shape|].
      destruct (r_text resp) as [e|t]; [reply_shape|].
      simpl. split; [reflexivity|]. split; [lia|].
      eexists; split; [reflexivity|]. intro H; congruence.
  - split; [|reflexivity]. split; [intros _; left; eauto | intros _; eexists; reflexivity].
  - split; [|reflexivity]. split; [intros _; right; eauto | intros _; eexists; reflexivity].
  - split; [|reply_shape].
    split; [intros [msg Hm]; discriminate | intros [(i & Hi)|(f & Hf)]; discriminate].
Qed.

(** X5: a 200 reply echoes, in its [url] field, the one url the handler
    fetched; that url is trimmed and allowed by the Validation Policy. *)
Theorem success_reply_echoes_fetched_url : forall fetch q r log,
  run (api_fetch fetch q) = (Replied r, log) -> res_status r = 200%Z ->
  exists u fields,
    log = [u] /\ res_body r = inr (JObj fields) /\
    json_field "url" fields = Some (JStr u) /\ validate u = Allowed /\ trim u = u.
Proof.
  intros fetch q r log H Hst.
  destruct (api_fetch_200 fetch q r log H Hst) as (s & resp & t & -> & _ & _ & Hr & ->).
  subst r. rewrite api_fetch_str in H. unfold reply_json in H.
  destruct (String.eqb (trim s) ""); [discriminate H|].
  destruct (validate (trim s)) eqn:V; try discriminate H.
  eexists _, _. split; [reflexivity|]. split; [reflexivity|].
  split; [reflexivity|]. split; [exact V | apply trim_idem].
Qed.

Lemma success_reply_echoes_fetched_url_witness :
  exists u fields,
    ["http://0177.0.0.1:8000/"] = [u] /\
    res_body (reply_json 200 (JObj [("status", JNum 200); ("url", JStr "http://0177.0.0.1:8000/");
                                    ("body", JStr "ok")])) = inr (JObj fields) /\
    json_field "url" fields = Some (JStr u) /\ validate u = Allowed /\ trim u = u.
Proof.
  refine (success_reply_echoes_fetched_url (fun _ => inr (mk_upstream 200 (inr "ok")))
            (Some (QStr " http://0177.0.0.1:8000/ ")) _ ["http://0177.0.0.1:8000/"] _ _);
    vm_compute; reflexivity.
Defined.

Lemma string_app_inv_r : forall a b c, a ++ c = b ++ c -> a = b.
Proof.
  induction a as [|x a IH]; intros [|y b] c H; try reflexivity.
  - apply (f_equal String.length) in H. rewrite !length_append in H. simpl in H. lia.
  - apply (f_equal String.length) in H. rewrite !length_append in H. simpl in H. lia.
  - simpl in H. injection H as -> H. f_equal. exact (IH b c H).
Qed.

(** ** Gateway and internal service together *)

(** X6: when the fetched url reaches the internal service's
    [/internal/flag] (as [http://2130706433:8000/internal/flag] does) and the
    secret has at most 1985 characters, the gateway's 200 reply carries the
    whole [admin-secret: <FLAG>] line, untruncated. *)
Theorem ssrf_relays_flag : forall e fetch s body,
  res_body (snd (internal_step (internal_init e) GetInternalFlag)) = inl body ->
  fetch (trim s) =
    inr (mk_upstream (res_status (snd (internal_step (internal_init e) GetInternalFlag))) (inr body)) ->
  trim s <> "" -> validate (trim s) = Allowed ->
  String.length (FLAG_of e) <= 1985 ->
  fst (run (api_fetch fetch (Some (QStr s)))) =
    Replied (reply_json 200 (JObj [("status", JNum 200); ("url", JStr (trim s));
                                   ("body", JStr ("admin-secret: " ++ FLAG_of e ++ String "010" ""))])).
Proof.
  intros e fetch s body Hb Hf Hne Hv Hlen.
  simpl in Hb, Hf. injection Hb as <-.
  rewrite api_fetch_str. apply String.eqb_neq in Hne. rewrite Hne, Hv, Hf.
  simpl fst. unfold fetched_reply, snippet_of. simpl r_text.
  replace (Nat.ltb 2000 _) with false; [reflexivity|].
  symmetry. apply Nat.ltb_ge. simpl. rewrite ?length_append. simpl. lia.
Qed.

Lemma ssrf_relays_flag_witness :
  fst (run (api_fetch
              (fun _ => inr (mk_upstream 200 (inr ("admin-secret: FLAG{ssrf_decimal_wrap}"
                                                  ++ String "010" ""))))
              (Some (QStr "http://2130706433:8000/internal/flag")))) =
    Replied (reply_json 200 (JObj [("status", JNum 200);
                                   ("url", JStr (trim "http://2130706433:8000/internal/flag"));
                                   ("body", JStr ("admin-secret: " ++ FLAG_of (mk_env None None)
                                                  ++ String "010" ""))])).
Proof.
  apply (ssrf_relays_flag (mk_env None None)
           (fun _ => inr (mk_upstream 200 (inr ("admin-secret: FLAG{ssrf_decimal_wrap}"
                                               ++ String "010" ""))))
           "http://2130706433:8000/internal/flag"
           ("admin-secret: FLAG{ssrf_decimal_wrap}" ++ String "010" ""));
    try (vm_compute; reflexivity).
  - discriminate.
  - vm_compute. lia.
Defined.

(** ** Internal service *)

(** X7: the secret reaches only the requests Express routes to
    [/internal/flag], which are the path names equal to [/internal/flag]
    up to letter case and one trailing slash (so [/INTERNAL/FLAG] and
    [/internal/flag/] serve it too, [/internal/flag//] does not).  Every
    other request gets the same response whatever the secret, and two
    different secrets give two different flag responses. *)
Theorem internal_secret_only_at_flag :
  (forall st st' rq,
     route_matches "/internal/flag" (request_path rq) = false ->
     snd (internal_step st rq) = snd (internal_step st' rq)) /\
  (forall st rq,
     route_matches "/internal/flag" (request_path rq) = true ->
     snd (internal_step st rq) = flag_response (st_flag st)) /\
  (forall f f', f <> f' -> flag_response f <> flag_response f') /\
  route_matches "/internal/flag" "/INTERNAL/FLAG" = true /\
  route_matches "/internal/flag" "/internal/flag/" = true /\
  route_matches "/internal/flag" "/internal/flag//" = false.
Proof.
  split; [|split; [|split; [|split; [|split]]]]; try reflexivity.
  - intros st st' [| up | p up] H; try discriminate H; [reflexivity|].
    simpl in H |- *. unfold internal_route. rewrite H. reflexivity.
  - intros st [| up | p up] H; try discriminate H; [reflexivity|].
    simpl in H |- *. unfold internal_route. rewrite H. reflexivity.
  - intros f f' Hne Heq. apply Hne. unfold flag_response in Heq. injection Heq as Heq.
    exact (string_app_inv_r _ _ _ Heq).
Qed.

(** ** Validation Policy under concatenation *)

(** X8: a forbidden url stays forbidden whatever is put before or after
    it: the check looks for the substrings anywhere, whatever the scheme. *)
Theorem forbidden_closed_under_extension : forall u v w,
  validate u = Forbidden -> validate (v ++ u ++ w) = Forbidden.
Proof.
  intros u v w H. unfold validate in *.
  destruct (forbidlist_hit (toLowerCase u)) eqn:F;
    [| destruct (negb (scheme_test u)); discriminate].
  rewrite !toLowerCase_app. unfold forbidlist_hit in F |- *.
  apply orb_prop in F as [F|F]; [apply orb_prop in F as [F|F]|].
  all: rewrite (includes_app_r _ _ _ (includes_app_l _ _ _ F)); rewrite ?orb_true_r; reflexivity.
Qed.

Lemma forbidden_closed_under_extension_witness :
  validate ("http://example.com/?next=" ++ "http://localhost/" ++ "#x") = Forbidden.
Proof. apply forbidden_closed_under_extension. reflexivity. Defined.
